(** * freelan: the frame switch and the FSCP socket

    A shallow embedding of [freelan::switch_] (src/switch.cpp) and of
    [freelan::Socket] (src/internal/fscp/socket.hpp), with the properties
    their design document states about them. *)

From Stdlib Require Import ZArith List Lia.
From Stdlib.Strings Require Import Byte.
From stdpp Require Import base option list countable strings gmap fin_maps.

Import ListNotations.

(** ** Bytes and buffers *)

#[global] Instance byte_eq_dec : EqDecision byte := Byte.byte_eq_dec.

#[global] Instance byte_countable : Countable byte :=
  inj_countable Byte.to_N Byte.of_N Byte.of_to_N.

(** [boost::asio::const_buffer]: a view on a run of bytes. *)
Definition const_buffer : Type := list byte.

Definition buffer_size (buf : const_buffer) : nat := length buf.

(** ** Failures

    [AssertionFailed] is a failed [assert]; [OutOfBounds] a read past the
    end of a buffer; [MalformedFrame] the rejection of a frame too short
    for an Ethernet header. *)
Inductive error : Set :=
| AssertionFailed
| OutOfBounds
| MalformedFrame.

Inductive result (A : Type) : Type :=
| Ok (a : A)
| Err (e : error).
Arguments Ok {A} a.
Arguments Err {A} e.

(** ** A state and error monad

    A member function is a function of the object's state that returns a
    value or fails, together with the state it leaves behind: what was
    written before a failure stays written. *)
Definition M (S A : Type) : Type := S -> result A * S.

#[global] Instance M_ret {S} : MRet (M S) := fun A a s => (Ok a, s).

#[global] Instance M_bind {S} : MBind (M S) := fun A B f m s =>
  match m s with
  | (Ok a, s') => f a s'
  | (Err e, s') => (Err e, s')
  end.

Definition fail {S A} (e : error) : M S A := fun s => (Err e, s).
Definition gets {S A} (f : S -> A) : M S A := fun s => (Ok (f s), s).
Definition modify {S} (f : S -> S) : M S unit := fun s => (Ok tt, f s).

(** [assert(b)] *)
Definition assert {S} (b : bool) : M S unit :=
  if b then mret tt else fail AssertionFailed.

(** [std::memcpy(dst, src, n)], as the bytes that reach [dst]. *)
Definition memcpy {S} (src : const_buffer) (n : nat) : M S (list byte) :=
  if (n <=? buffer_size src)%nat then mret (take n src) else fail OutOfBounds.

(** ** The switch (src/switch.cpp) *)

Module Switch.

Inductive routing_method_type : Set := RM_HUB | RM_SWITCH.

(** [port_type] is a handle on a port: [assert(port)] and [port->write].
    Handles are compared by identity; [0] is the null handle. *)
Definition port_type : Type := N.

(** [boost::array<uint8_t, 6>] *)
Definition ethernet_address_type : Type := list byte.
Definition static_size : nat := 6.

Record switch_ : Type := mk_switch {
  m_routing_method : routing_method_type;
  m_ports : list port_type;
  m_ethernet_address_map : gmap ethernet_address_type port_type;
  (** what the ports' [write] has been given so far, oldest first *)
  port_writes : list (port_type * const_buffer)
}.

Definition set_ethernet_address_map
    (f : gmap ethernet_address_type port_type -> gmap ethernet_address_type port_type)
    (s : switch_) : switch_ :=
  mk_switch (m_routing_method s) (m_ports s) (f (m_ethernet_address_map s))
            (port_writes s).

Definition add_port_write (w : port_type * const_buffer) (s : switch_) : switch_ :=
  mk_switch (m_routing_method s) (m_ports s) (m_ethernet_address_map s)
            (port_writes s ++ [w]).

(** [switch_::to_ethernet_address] *)
Definition to_ethernet_address (buf : const_buffer) : M switch_ ethernet_address_type :=
  assert (buffer_size buf =? static_size)%nat;;
  memcpy buf static_size.

(** [switch_::send_data_to]: [port->write(data)] *)
Definition send_data_to (port : port_type) (data : const_buffer) : M switch_ unit :=
  modify (add_port_write (port, data)).

(** The body of the [BOOST_FOREACH] of [switch_::send_data_from]. *)
Fixpoint send_data_from_each (ports : list port_type) (source_port : port_type)
    (data : const_buffer) : M switch_ unit :=
  match ports with
  | [] => mret tt
  | port :: rest =>
      (if negb (source_port =? port)%N then send_data_to port data else mret tt);;
      send_data_from_each rest source_port data
  end.

(** [switch_::send_data_from] *)
Definition send_data_from (source_port : port_type) (data : const_buffer) : M switch_ unit :=
  ports ← gets m_ports;
  send_data_from_each ports source_port data.

(** Modelled from the spec: [asiotap::osi::const_helper<ethernet_frame>]
    (asiotap/osi/ethernet_helper.hpp) is not among the sources.  The
    header is a 6-byte destination, a 6-byte source and the 2-byte
    protocol field before the payload; a frame shorter than the header
    is rejected with [MalformedFrame]. *)
Definition ethernet_header_size : nat := 14.

Record ethernet_helper : Type := mk_helper { helper_buffer : const_buffer }.

Definition const_helper (data : const_buffer) : M switch_ ethernet_helper :=
  if (buffer_size data <? ethernet_header_size)%nat then fail MalformedFrame
  else mret (mk_helper data).

Definition target (h : ethernet_helper) : const_buffer :=
  take static_size (helper_buffer h).

Definition sender (h : ethernet_helper) : const_buffer :=
  take static_size (drop static_size (helper_buffer h)).

(** [switch_::receive_data] *)
Definition receive_data (port : port_type) (data : const_buffer) : M switch_ unit :=
  assert (negb (port =? 0)%N);;
  routing_method ← gets m_routing_method;
  match routing_method with
  | RM_HUB =>
      send_data_from port data
  | RM_SWITCH =>
      ethernet_helper ← const_helper data;
      sender_address ← to_ethernet_address (sender ethernet_helper);
      modify (set_ethernet_address_map (fun m => <[sender_address := port]> m));;
      target_address ← to_ethernet_address (target ethernet_helper);
      (* We look in the ethernet address map *)
      target_entry ← gets (fun s => m_ethernet_address_map s !! target_address);
      match target_entry with
      | Some _ => mret tt (* TODO: Implement *)
      | None => mret tt
      end
      (* TODO: Implement *)
  end.

(** What a flood from [source_port] hands to the ports: the frame itself,
    once for each port other than [source_port], in the order of the
    ports. *)
Definition flooded (ports : list port_type) (source_port : port_type)
    (data : const_buffer) : list (port_type * const_buffer) :=
  (fun port => (port, data)) <$> filter (fun port => port ≠ source_port) ports.

End Switch.

(** ** The FSCP socket (src/internal/fscp/socket.hpp) *)

Module FscpSocket.

(** [boost::asio::ip::udp::socket::endpoint_type]: an address and a port. *)
Definition Endpoint : Type := N * N.

(** [boost::system::error_code]: [0] is success. *)
Definition error_code : Type := N.
Definition success : error_code := 0%N.

(** The completion handler given to [async_greet], by name. *)
Definition WriteHandler : Type := nat.

Inductive session_state_type : Set := UNKNOWN | HELLO_SENT | PRESENTED | TRUSTED.

(** Modelled from the spec: [EndpointContext] (endpoint_context.hpp) is
    not among the sources.  It holds the 32-bit counter of HELLO request
    numbers, the session state and the last verified certificate; a new
    context starts at number [0], in state [UNKNOWN], with no
    certificate. *)
Record EndpointContext : Type := mk_context {
  next_hello_number : Z;
  session_state : session_state_type;
  peer_signature_certificate : option (list byte)
}.

Definition default_context : EndpointContext := mk_context 0 UNKNOWN None.

Definition uint32_modulus : Z := 2 ^ 32.

(** Modelled from the spec: [EndpointContext::get_next_hello_request_number]
    (endpoint_context.hpp) is not among the sources.  It hands out the
    counter's value and advances the counter, which wraps on overflow. *)
Definition get_next_hello_request_number (c : EndpointContext) : Z * EndpointContext :=
  (next_hello_number c,
   mk_context ((next_hello_number c + 1) mod uint32_modulus)
              (session_state c) (peer_signature_certificate c)).

(** Modelled from the spec: the message codec (message.hpp) is not among
    the sources.  A HELLO is the one-byte message type followed by the
    request number on four bytes, most significant first. *)
Definition MESSAGE_TYPE_HELLO_REQUEST : byte := x00.

Definition byte_of_Z (z : Z) : byte :=
  default x00 (Byte.of_N (Z.to_N (z mod 256))).

Definition uint32_bytes (n : Z) : list byte :=
  [ byte_of_Z (Z.shiftr n 24); byte_of_Z (Z.shiftr n 16);
    byte_of_Z (Z.shiftr n 8); byte_of_Z n ].

Definition hello_request_message (unique_number : Z) : list byte :=
  MESSAGE_TYPE_HELLO_REQUEST :: uint32_bytes unique_number.

(** Modelled from the spec: [write_fscp_hello_request_message(buf, buf_len,
    unique_number)] (message.hpp) is not among the sources.  With a null
    [buf] it only reports the size the message requires; otherwise it
    writes the message at the start of [buf] and returns its size, or
    returns [0] and writes nothing when [buf_len] is too small. *)
Definition write_fscp_hello_request_message
    (buf : option (list byte)) (buf_len : nat) (unique_number : Z)
    : nat * option (list byte) :=
  let message := hello_request_message unique_number in
  match buf with
  | None => (length message, None)
  | Some bytes =>
      if (buf_len <? length message)%nat then (0%nat, Some bytes)
      else (length message, Some (message ++ drop (length message) bytes))
  end.

(** A send handed to the UDP socket and not yet completed. *)
Record send_operation : Type := mk_send {
  send_buffer : list byte;
  send_destination : Endpoint;
  send_handler : WriteHandler
}.

Record Socket : Type := mk_socket {
  (** [m_socket], as the sends it has in flight, oldest first *)
  m_socket : list send_operation;
  m_endpoint_contexts : gmap Endpoint EndpointContext;
  (** the calls made to completion handlers so far, oldest first *)
  handler_calls : list (WriteHandler * error_code * nat)
}.

(** [Socket(io_service)] *)
Definition new_socket : Socket := mk_socket [] ∅ [].

Definition set_endpoint_contexts
    (f : gmap Endpoint EndpointContext -> gmap Endpoint EndpointContext)
    (s : Socket) : Socket :=
  mk_socket (m_socket s) (f (m_endpoint_contexts s)) (handler_calls s).

(** [Socket::get_endpoint_context_for]: [m_endpoint_contexts[endpoint]],
    which adds a default context when the endpoint has none. *)
Definition get_endpoint_context_for (endpoint : Endpoint) : M Socket EndpointContext :=
  found ← gets (fun s => m_endpoint_contexts s !! endpoint);
  match found with
  | Some context => mret context
  | None =>
      modify (set_endpoint_contexts (fun m => <[endpoint := default_context]> m));;
      mret default_context
  end.

(** [m_socket.async_send_to(buffer, destination, handler)] *)
Definition async_send_to (buffer : list byte) (destination : Endpoint)
    (handler : WriteHandler) : M Socket unit :=
  modify (fun s => mk_socket (m_socket s ++ [mk_send buffer destination handler])
                             (m_endpoint_contexts s) (handler_calls s)).

(** [Socket::async_greet].  The context is held by reference: the number
    taken from it is taken from the map's entry. *)
Definition async_greet (destination : Endpoint) (handler : WriteHandler) : M Socket unit :=
  endpoint_context ← get_endpoint_context_for destination;
  let '(unique_number, advanced) := get_next_hello_request_number endpoint_context in
  modify (set_endpoint_contexts (fun m => <[destination := advanced]> m));;
  let required_size := fst (write_fscp_hello_request_message None 0 unique_number) in
  assert (negb (required_size =? 0)%nat);;
  let buf := replicate required_size x00 in
  async_send_to buf destination handler.

(** The completion of the in-flight send at position [i]: the lambda of
    [async_greet] passes the outcome on to the handler. *)
Definition complete_send (i : nat) (ec : error_code) (bytes_transferred : nat)
    : M Socket unit :=
  found ← gets (fun s => m_socket s !! i);
  match found with
  | Some op =>
      modify (fun s => mk_socket (delete i (m_socket s)) (m_endpoint_contexts s)
                                 (handler_calls s ++ [(send_handler op, ec, bytes_transferred)]))
  | None => mret tt
  end.

(** What happens to a socket: a call of [async_greet], the completion of
    a send, the arrival of a datagram from the network. *)
Inductive event : Type :=
| Greet (destination : Endpoint) (handler : WriteHandler)
| SendCompleted (i : nat) (ec : error_code) (bytes_transferred : nat)
| DatagramArrived (sender : Endpoint) (payload : list byte).

(** The socket starts no receive: an arriving datagram reaches no code. *)
Definition dispatch (e : event) : M Socket unit :=
  match e with
  | Greet destination handler => async_greet destination handler
  | SendCompleted i ec bytes_transferred => complete_send i ec bytes_transferred
  | DatagramArrived _ _ => mret tt
  end.

Fixpoint run (trace : list event) : M Socket unit :=
  match trace with
  | [] => mret tt
  | e :: rest => dispatch e;; run rest
  end.

(** Modelled from the spec: a HELLO-response is the message type of the
    response followed by the request number it answers. *)
Definition MESSAGE_TYPE_HELLO_RESPONSE : byte := x01.

Definition hello_response_message (unique_number : Z) : list byte :=
  MESSAGE_TYPE_HELLO_RESPONSE :: uint32_bytes unique_number.

(** The number handed out by the [k]-th later call of
    [get_next_hello_request_number] on a context, counting from [0]. *)
Fixpoint nth_hello_request_number (k : nat) (c : EndpointContext) : Z :=
  match k with
  | O => fst (get_next_hello_request_number c)
  | S k' => nth_hello_request_number k' (snd (get_next_hello_request_number c))
  end.

(** The context [async_greet] finds for an endpoint: the one the map has,
    or the default one it adds. *)
Definition context_of (s : Socket) (endpoint : Endpoint) : EndpointContext :=
  default default_context (m_endpoint_contexts s !! endpoint).

End FscpSocket.

(** ** Sample switches, frames and endpoints *)

Module Samples.

Import Switch FscpSocket.

Definition MAC_A : ethernet_address_type := [x02; x00; x00; x00; x00; x0a].
Definition MAC_B : ethernet_address_type := [x02; x00; x00; x00; x00; x0b].

(** An Ethernet frame: destination, source, protocol, payload. *)
Definition frame (destination source : ethernet_address_type) : const_buffer :=
  destination ++ source ++ [x08; x00] ++ [xde; xad; xbe; xef].

Definition frame_from_A : const_buffer := frame MAC_B MAC_A.
Definition frame_to_A : const_buffer := frame MAC_A MAC_B.

(** Three bytes: too short for an Ethernet header. *)
Definition short_frame : const_buffer := [x01; x02; x03].

Definition three_ports : list port_type := [1%N; 2%N; 3%N].

Definition hub : switch_ := mk_switch RM_HUB three_ports ∅ [].
Definition learning_switch : switch_ := mk_switch RM_SWITCH three_ports ∅ [].

(** A hub whose table, for the sake of the argument, knows [MAC_A]. *)
Definition hub_knowing_A : switch_ :=
  mk_switch RM_HUB three_ports {[ MAC_A := 1%N ]} [].

(** 127.0.0.1:12001 *)
Definition bob : Endpoint := (2130706433%N, 12001%N).

End Samples.

(** ** Runs of the switch and of the socket *)

Module Runs.

Import Switch FscpSocket.


(** The greets of a trace: endpoint and handler, in order. *)
Definition greeted (trace : list event) : list (Endpoint * WriteHandler) :=
  omap (fun e => match e with
                 | Greet destination handler => Some (destination, handler)
                 | _ => None
                 end) trace.



(** The handlers of the sends in flight. *)
Definition in_flight (s : Socket) : list WriteHandler := send_handler <$> m_socket s.

(** The handlers called so far. *)
Definition called (s : Socket) : list WriteHandler :=
  (fun call => fst (fst call)) <$> handler_calls s.

End Runs.

(** ** The sample client (samples/client2/client2.cpp) *)

Module Client2.

(** The signal numbers of [<csignal>], with their Linux values. *)
Definition SIGINT : Z := 2.
Definition SIGABRT : Z := 6.
Definition SIGTERM : Z := 15.

(** An [fscp::server2] of [main], by name. *)
Definition server : Type := string.

Record process : Type := mk_process {
  (** [static boost::function<void ()> stop_function]: empty, or
      [_stop_function] bound to three servers *)
  stop_function : option (server * server * server);
  (** the signals for which [signal] returns [SIG_ERR] *)
  refused : list Z;
  (** the signals [signal] has given a handler to, oldest first *)
  installed : list Z;
  (** the lines written to [std::cerr], oldest first *)
  cerr : list string;
  (** the calls of [server2::close], oldest first *)
  closed : list server
}.

Definition write_cerr (line : string) : M process unit :=
  modify (fun p => mk_process (stop_function p) (refused p) (installed p)
                              (cerr p ++ [line]) (closed p)).

(** [s.close()] *)
Definition close (s : server) : M process unit :=
  modify (fun p => mk_process (stop_function p) (refused p) (installed p)
                              (cerr p) (closed p ++ [s])).

Definition set_stop_function (f : option (server * server * server)) : M process unit :=
  modify (fun p => mk_process f (refused p) (installed p) (cerr p) (closed p)).

(** [_stop_function] *)
Definition _stop_function (s1 s2 s3 : server) : M process unit :=
  close s1;;
  close s2;;
  close s3.

(** [signal_handler] *)
Definition signal_handler (code : Z) : M process unit :=
  if bool_decide (code = SIGTERM ∨ code = SIGINT ∨ code = SIGABRT) then
    f ← gets stop_function;
    match f with
    | Some (s1, s2, s3) =>
        write_cerr "Signal caught: stopping...";;
        _stop_function s1 s2 s3;;
        set_stop_function None
    | None => mret tt
    end
  else mret tt.

(** [signal(sig, signal_handler) == SIG_ERR] *)
Definition signal_fails (sig : Z) : M process bool :=
  no ← gets refused;
  if bool_decide (sig ∈ no) then mret true
  else
    modify (fun p => mk_process (stop_function p) (refused p) (installed p ++ [sig])
                                (cerr p) (closed p));;
    mret false.

(** [register_signal_handlers] *)
Definition register_signal_handlers : M process bool :=
  failed ← signal_fails SIGTERM;
  if failed : bool then
    write_cerr "Failed to catch SIGTERM signals.";; mret false
  else
    failed ← signal_fails SIGINT;
    if failed : bool then
      write_cerr "Failed to catch SIGINT signals.";; mret false
    else
      failed ← signal_fails SIGABRT;
      if failed : bool then
        write_cerr "Failed to catch SIGABRT signals.";; mret false
      else mret true.

(** The signals of a list, handled one after the other. *)
Fixpoint signal_handler_each (codes : list Z) : M process unit :=
  match codes with
  | [] => mret tt
  | code :: rest => signal_handler code;; signal_handler_each rest
  end.

Definition stops (code : Z) : Prop := code = SIGTERM ∨ code = SIGINT ∨ code = SIGABRT.

(** [main] after [stop_function = boost::bind(&_stop_function, ...)]. *)
Definition serving : process :=
  mk_process (Some ("alice", "bob", "chris")) [] [SIGTERM; SIGINT; SIGABRT] [] [].

End Client2.

(** * Properties *)

(** Unfolding the monad's operations in a goal. *)
Ltac unfold_monad :=
  unfold mbind, M_bind, mret, M_ret, fail, gets, modify, assert in *.

(** ** The switch *)

Section SwitchFacts.

Import Switch.

Lemma send_data_from_each_spec ports source_port data s :
  send_data_from_each ports source_port data s =
  (Ok tt, mk_switch (m_routing_method s) (m_ports s) (m_ethernet_address_map s)
                    (port_writes s ++ flooded ports source_port data)).
Proof.
  revert s. induction ports as [|port rest IH]; intros s.
  - cbn. unfold_monad. rewrite app_nil_r. by destruct s.
  - cbn [send_data_from_each]. unfold flooded.
    rewrite filter_cons. unfold mbind, M_bind at 1.
    destruct (N.eqb_spec source_port port) as [->|Hne]; cbn [negb].
    + unfold mret at 1, M_ret at 1. rewrite IH.
      rewrite decide_False by (intros H; by apply H). done.
    + unfold send_data_to, modify. rewrite IH. cbn.
      rewrite decide_True by congruence.
      rewrite fmap_cons, <- app_assoc. done.
Qed.

Lemma send_data_from_spec source_port data s :
  send_data_from source_port data s =
  (Ok tt, mk_switch (m_routing_method s) (m_ports s) (m_ethernet_address_map s)
                    (port_writes s ++ flooded (m_ports s) source_port data)).
Proof.
  unfold send_data_from. unfold mbind, M_bind, gets.
  apply send_data_from_each_spec.
Qed.

Lemma elem_of_flooded ports source_port data port frame :
  (port, frame) ∈ flooded ports source_port data ↔
  port ∈ ports ∧ port ≠ source_port ∧ frame = data.
Proof.
  unfold flooded. rewrite list_elem_of_fmap. split.
  - intros (p & [= -> ->] & Hin). apply list_elem_of_filter in Hin. tauto.
  - intros (Hin & Hne & ->). exists port. split; [done|].
    apply list_elem_of_filter. done.
Qed.

Lemma to_ethernet_address_spec buf s :
  to_ethernet_address buf s =
  if decide (buffer_size buf = static_size) then (Ok buf, s)
  else (Err AssertionFailed, s).
Proof.
  unfold to_ethernet_address, memcpy. unfold_monad.
  case_decide as Hsize.
  - rewrite Hsize, Nat.eqb_refl, Nat.leb_refl.
    unfold buffer_size in Hsize. rewrite <- Hsize, firstn_all. done.
  - apply Nat.eqb_neq in Hsize. rewrite Hsize. done.
Qed.

Lemma receive_data_hub port data s :
  m_routing_method s = RM_HUB → port ≠ 0%N →
  receive_data port data s =
  (Ok tt, mk_switch RM_HUB (m_ports s) (m_ethernet_address_map s)
                    (port_writes s ++ flooded (m_ports s) port data)).
Proof.
  intros Hmode Hport. unfold receive_data.
  apply N.eqb_neq in Hport. unfold mbind, M_bind, assert. rewrite Hport. cbn.
  unfold gets. rewrite Hmode. rewrite send_data_from_spec, Hmode. done.
Qed.

Lemma receive_data_null data s :
  receive_data 0%N data s = (Err AssertionFailed, s).
Proof. done. Qed.

Lemma receive_data_switch_short port data s :
  m_routing_method s = RM_SWITCH → port ≠ 0%N →
  (buffer_size data < ethernet_header_size)%nat →
  receive_data port data s = (Err MalformedFrame, s).
Proof.
  intros Hmode Hport Hshort. unfold receive_data.
  apply N.eqb_neq in Hport. unfold mbind, M_bind, assert. rewrite Hport. cbn.
  unfold gets. rewrite Hmode. unfold const_helper.
  apply Nat.ltb_lt in Hshort. rewrite Hshort. done.
Qed.

Lemma receive_data_switch port data s :
  m_routing_method s = RM_SWITCH → port ≠ 0%N →
  (ethernet_header_size ≤ buffer_size data)%nat →
  receive_data port data s =
  (Ok tt, mk_switch RM_SWITCH (m_ports s)
                    (<[take 6 (drop 6 data) := port]> (m_ethernet_address_map s))
                    (port_writes s)).
Proof.
  intros Hmode Hport Hlong. unfold receive_data.
  apply N.eqb_neq in Hport. unfold mbind, M_bind, assert. rewrite Hport. cbn.
  unfold gets. rewrite Hmode. unfold const_helper.
  apply Nat.ltb_ge in Hlong as Hlong'. rewrite Hlong'. unfold mret at 1, M_ret at 1.
  unfold buffer_size, ethernet_header_size in Hlong.
  rewrite !to_ethernet_address_spec.
  unfold sender, target, helper_buffer, static_size, buffer_size.
  rewrite decide_True by (rewrite length_take, length_drop; lia).
  unfold modify, set_ethernet_address_map. cbn.
  rewrite to_ethernet_address_spec.
  unfold buffer_size, static_size.
  rewrite decide_True by (rewrite length_take; lia).
  rewrite Hmode. by destruct (_ !! _).
Qed.

Lemma receive_data_switch_writes_nothing port data s :
  m_routing_method s = RM_SWITCH →
  port_writes (snd (receive_data port data s)) = port_writes s.
Proof.
  intros Hmode. destruct (decide (port = 0%N)) as [->|Hport]; [done|].
  destruct (decide (buffer_size data < ethernet_header_size)%nat).
  - by rewrite receive_data_switch_short.
  - by rewrite receive_data_switch by (done || lia).
Qed.

End SwitchFacts.

Section SwitchClaims.

Import Switch Samples.

(** C1 (the code falls short of it): in SWITCH mode [receive_data] learns
    the source address and looks the destination up, and then forwards
    nothing.  A frame from [MAC_A] to the unknown [MAC_B], arriving on
    port 1 of a switch with ports 1, 2 and 3, is written to no port,
    where it should be flooded to ports 2 and 3; [MAC_A] being learned
    on port 1, a frame to [MAC_A] arriving on port 2 is written to no
    port either, where it should be forwarded to port 1. *)
Theorem receive_data_switch_forwards_nothing :
  let '(r1, s1) := receive_data 1%N frame_from_A learning_switch in
  let '(r2, s2) := receive_data 2%N frame_to_A s1 in
  r1 = Ok tt ∧ port_writes s1 = [] ∧
  m_ethernet_address_map s1 !! MAC_A = Some 1%N ∧
  m_ethernet_address_map s1 !! MAC_B = None ∧
  r2 = Ok tt ∧ port_writes s2 = [].
Proof. vm_compute. done. Qed.

(** C3: in HUB mode [receive_data] hands the frame, as it is, to each
    port other than the source port, and to nothing else, whatever the
    address table holds; the address table is left as it was. *)
Theorem receive_data_hub_floods (s : switch_) (port : port_type) (data : const_buffer) :
  m_routing_method s = RM_HUB → port ≠ 0%N →
  ∃ s', receive_data port data s = (Ok tt, s') ∧
    port_writes s' = port_writes s ++ flooded (m_ports s) port data ∧
    (∀ p written, (p, written) ∈ flooded (m_ports s) port data ↔
                  p ∈ m_ports s ∧ p ≠ port ∧ written = data) ∧
    m_ethernet_address_map s' = m_ethernet_address_map s ∧
    m_ports s' = m_ports s ∧ m_routing_method s' = m_routing_method s.
Proof.
  intros Hmode Hport. eexists. split; [by apply receive_data_hub|].
  cbn. split_and!; auto using elem_of_flooded.
Qed.

Lemma receive_data_hub_floods_witness :
  m_routing_method hub_knowing_A = RM_HUB ∧ 1%N ≠ 0%N ∧
  ∃ s', receive_data 1%N frame_to_A hub_knowing_A = (Ok tt, s') ∧
    port_writes s' =
      port_writes hub_knowing_A ++ flooded (m_ports hub_knowing_A) 1%N frame_to_A ∧
    (∀ p written, (p, written) ∈ flooded (m_ports hub_knowing_A) 1%N frame_to_A ↔
                  p ∈ m_ports hub_knowing_A ∧ p ≠ 1%N ∧ written = frame_to_A) ∧
    m_ethernet_address_map s' = m_ethernet_address_map hub_knowing_A ∧
    m_ports s' = m_ports hub_knowing_A ∧
    m_routing_method s' = m_routing_method hub_knowing_A.
Proof.
  split; [reflexivity|]. split; [discriminate|].
  apply (receive_data_hub_floods hub_knowing_A 1%N frame_to_A); [reflexivity|discriminate].
Defined.

(** C4, as the claim has it, fails in HUB mode: a hub given three bytes
    on port 1 reports no error and writes them to ports 2 and 3. *)
Lemma receive_data_hub_floods_short_frame :
  (buffer_size short_frame < ethernet_header_size)%nat ∧
  receive_data 1%N short_frame hub =
  (Ok tt, mk_switch RM_HUB three_ports ∅ [(2%N, short_frame); (3%N, short_frame)]).
Proof. split; [vm_compute; lia|]. vm_compute. done. Qed.

(** C4, amended: a frame shorter than the Ethernet header is rejected
    with [MalformedFrame], the switch and its ports untouched, in SWITCH
    mode, where the header is read; in HUB mode the frame is not looked
    at: it is flooded like any other and no error is reported. *)
Theorem receive_data_short_frame (s : switch_) (port : port_type) (data : const_buffer) :
  port ≠ 0%N → (buffer_size data < ethernet_header_size)%nat →
  match m_routing_method s with
  | RM_SWITCH => receive_data port data s = (Err MalformedFrame, s)
  | RM_HUB =>
      receive_data port data s =
      (Ok tt, mk_switch RM_HUB (m_ports s) (m_ethernet_address_map s)
                        (port_writes s ++ flooded (m_ports s) port data))
  end.
Proof.
  intros Hport Hshort. destruct (m_routing_method s) eqn:Hmode.
  - by apply receive_data_hub.
  - by apply receive_data_switch_short.
Qed.

Lemma receive_data_short_frame_witness :
  2%N ≠ 0%N ∧ (buffer_size short_frame < ethernet_header_size)%nat ∧
  receive_data 2%N short_frame learning_switch = (Err MalformedFrame, learning_switch).
Proof.
  split; [discriminate|]. split; [vm_compute; lia|].
  apply (receive_data_short_frame learning_switch 2%N short_frame);
    [discriminate | vm_compute; lia].
Defined.
(** C5: in SWITCH mode [receive_data], given a frame that holds an
    Ethernet header, sets the table's entry for the frame's source
    address to the source port, replacing what the entry held and
    leaving every other entry alone; when the entry already held that
    port the table is unchanged; and the table it leaves gives an address
    at most one port. *)
Theorem receive_data_switch_learns (s : switch_) (port : port_type) (data : const_buffer) :
  m_routing_method s = RM_SWITCH → port ≠ 0%N →
  (ethernet_header_size ≤ buffer_size data)%nat →
  let source_address := sender (mk_helper data) in
  ∃ s', receive_data port data s = (Ok tt, s') ∧
    m_ethernet_address_map s' = <[source_address := port]> (m_ethernet_address_map s) ∧
    m_ethernet_address_map s' !! source_address = Some port ∧
    (∀ a, a ≠ source_address →
          m_ethernet_address_map s' !! a = m_ethernet_address_map s !! a) ∧
    (m_ethernet_address_map s !! source_address = Some port →
     m_ethernet_address_map s' = m_ethernet_address_map s) ∧
    (∀ a p q, m_ethernet_address_map s' !! a = Some p →
              m_ethernet_address_map s' !! a = Some q → p = q).
Proof.
  intros Hmode Hport Hlong source_address.
  eexists. split; [by apply receive_data_switch|]. cbn.
  change (take 6 (drop 6 data)) with source_address.
  split_and!.
  - done.
  - apply lookup_insert_eq.
  - intros a Ha. by apply lookup_insert_ne.
  - apply insert_id.
  - intros a p q Hp Hq. congruence.
Qed.

Lemma receive_data_switch_learns_witness :
  m_routing_method learning_switch = RM_SWITCH ∧ 1%N ≠ 0%N ∧
  (ethernet_header_size ≤ buffer_size frame_from_A)%nat ∧
  ∃ s', receive_data 1%N frame_from_A learning_switch = (Ok tt, s') ∧
    m_ethernet_address_map s' = <[MAC_A := 1%N]> (m_ethernet_address_map learning_switch) ∧
    m_ethernet_address_map s' !! MAC_A = Some 1%N ∧
    (∀ a, a ≠ MAC_A →
          m_ethernet_address_map s' !! a = m_ethernet_address_map learning_switch !! a) ∧
    (m_ethernet_address_map learning_switch !! MAC_A = Some 1%N →
     m_ethernet_address_map s' = m_ethernet_address_map learning_switch) ∧
    (∀ a p q, m_ethernet_address_map s' !! a = Some p →
              m_ethernet_address_map s' !! a = Some q → p = q).
Proof.
  split; [reflexivity|]. split; [discriminate|]. split; [vm_compute; lia|].
  apply (receive_data_switch_learns learning_switch 1%N frame_from_A);
    [reflexivity | discriminate | vm_compute; lia].
Defined.

(** C6: whatever the mode, the port and the frame, and whether
    [receive_data] returns or fails, none of the writes it makes goes to
    the port the frame came from; the same holds of [send_data_from]. *)
Theorem receive_data_never_reflects (s : switch_) (port : port_type) (data : const_buffer) :
  (∃ written,
     port_writes (snd (receive_data port data s)) = port_writes s ++ written ∧
     Forall (fun w => fst w ≠ port) written) ∧
  (∃ written,
     port_writes (snd (send_data_from port data s)) = port_writes s ++ written ∧
     Forall (fun w => fst w ≠ port) written).
Proof.
  assert (Hflood : Forall (fun w : port_type * const_buffer => fst w ≠ port)
                          (flooded (m_ports s) port data)).
  { apply Forall_forall. intros [p w] Hin. apply elem_of_flooded in Hin. tauto. }
  split.
  - destruct (decide (port = 0%N)) as [->|Hport].
    { exists []. rewrite receive_data_null, app_nil_r. done. }
    destruct (m_routing_method s) eqn:Hmode.
    + exists (flooded (m_ports s) port data).
      rewrite receive_data_hub by done. done.
    + exists []. rewrite app_nil_r. split; [|done].
      destruct (decide (buffer_size data < ethernet_header_size)%nat).
      * rewrite receive_data_switch_short by done. done.
      * rewrite receive_data_switch by (done || lia). done.
  - exists (flooded (m_ports s) port data). rewrite send_data_from_spec. done.
Qed.

(** C10: given a buffer of exactly [static_size] (6) bytes,
    [to_ethernet_address] returns the address whose bytes are the
    buffer's, in order, and its copy of [static_size] bytes stays inside
    the buffer; a buffer of any other size fails the assertion before
    anything is copied. *)
Theorem to_ethernet_address_copies (buf : const_buffer) (s : switch_) :
  buffer_size buf = static_size →
  to_ethernet_address buf s = (Ok buf, s) ∧
  memcpy buf static_size s = (Ok buf, s) ∧
  (∀ i, (i < static_size)%nat → ∃ b, buf !! i = Some b) ∧
  (∀ other : const_buffer, buffer_size other ≠ static_size →
     to_ethernet_address other s = (Err AssertionFailed, s)).
Proof.
  intros Hsize. split_and!.
  - rewrite to_ethernet_address_spec. by rewrite decide_True.
  - unfold memcpy. rewrite Hsize, Nat.leb_refl.
    unfold buffer_size in Hsize. rewrite <- Hsize, firstn_all. done.
  - intros i Hi. apply lookup_lt_is_Some. unfold buffer_size in Hsize. lia.
  - intros other Hother. rewrite to_ethernet_address_spec. by rewrite decide_False.
Qed.

Lemma to_ethernet_address_copies_witness :
  buffer_size MAC_A = static_size ∧
  to_ethernet_address MAC_A hub = (Ok MAC_A, hub) ∧
  memcpy MAC_A static_size hub = (Ok MAC_A, hub) ∧
  (∀ i, (i < static_size)%nat → ∃ b, MAC_A !! i = Some b) ∧
  (∀ other : const_buffer, buffer_size other ≠ static_size →
     to_ethernet_address other hub = (Err AssertionFailed, hub)).
Proof.
  split; [reflexivity|].
  apply (to_ethernet_address_copies MAC_A hub); reflexivity.
Defined.

End SwitchClaims.

(** ** The FSCP socket *)

Section SocketFacts.

Import FscpSocket.

Lemma hello_request_message_length unique_number :
  length (hello_request_message unique_number) = 5%nat.
Proof. reflexivity. Qed.

Lemma get_endpoint_context_for_spec endpoint s :
  get_endpoint_context_for endpoint s =
  match m_endpoint_contexts s !! endpoint with
  | Some context => (Ok context, s)
  | None => (Ok default_context,
             mk_socket (m_socket s)
                       (<[endpoint := default_context]> (m_endpoint_contexts s))
                       (handler_calls s))
  end.
Proof.
  unfold get_endpoint_context_for. unfold_monad.
  by destruct (m_endpoint_contexts s !! endpoint).
Qed.

Lemma async_greet_spec destination handler s :
  async_greet destination handler s =
  (Ok tt,
   mk_socket (m_socket s ++ [mk_send (replicate 5 x00) destination handler])
             (<[destination := snd (get_next_hello_request_number (context_of s destination))]>
                (m_endpoint_contexts s))
             (handler_calls s)).
Proof.
  unfold async_greet, context_of.
  unfold mbind, M_bind at 1. rewrite get_endpoint_context_for_spec.
  destruct (m_endpoint_contexts s !! destination) as [c|]; cbn.
  - done.
  - unfold set_endpoint_contexts. cbn. by rewrite insert_insert_eq.
Qed.

Lemma run_datagrams (arrivals : list (Endpoint * list byte)) s :
  run ((fun d => DatagramArrived (fst d) (snd d)) <$> arrivals) s = (Ok tt, s).
Proof. induction arrivals as [|d rest IH]; [done|]. cbn. exact IH. Qed.

Lemma run_cons e trace s :
  run (e :: trace) s =
  match dispatch e s with
  | (Ok _, s') => run trace s'
  | (Err err, s') => (Err err, s')
  end.
Proof. cbn. unfold mbind, M_bind. by destruct (dispatch e s) as [[[]|] ?]. Qed.

Lemma complete_send_spec i ec bytes_transferred s op :
  m_socket s !! i = Some op →
  complete_send i ec bytes_transferred s =
  (Ok tt, mk_socket (delete i (m_socket s)) (m_endpoint_contexts s)
                    (handler_calls s ++ [(send_handler op, ec, bytes_transferred)])).
Proof. intros Hop. unfold complete_send. unfold_monad. by rewrite Hop. Qed.

Lemma nth_hello_request_number_spec k c :
  (0 ≤ next_hello_number c < uint32_modulus)%Z →
  nth_hello_request_number k c = ((next_hello_number c + Z.of_nat k) mod uint32_modulus)%Z.
Proof.
  revert c. induction k as [|k IH]; intros c Hrange.
  - cbn [nth_hello_request_number get_next_hello_request_number fst].
    rewrite Z.add_0_r, Z.mod_small; done.
  - cbn [nth_hello_request_number get_next_hello_request_number snd].
    rewrite IH; cbn [next_hello_number].
    + rewrite Zplus_mod_idemp_l. f_equal. lia.
    + apply Z.mod_pos_bound. reflexivity.
Qed.

Lemma uint32_wrap_distinct (n i j : Z) :
  (i < j)%Z → (j - i < uint32_modulus)%Z →
  ((n + i) mod uint32_modulus ≠ (n + j) mod uint32_modulus)%Z.
Proof.
  intros Hlt Hwindow Heq.
  assert (Hzero : (((n + j) - (n + i)) mod uint32_modulus = 0)%Z).
  { rewrite Zminus_mod, Heq, Z.sub_diag. reflexivity. }
  replace (n + j - (n + i))%Z with (j - i)%Z in Hzero by lia.
  rewrite Z.mod_small in Hzero by lia. lia.
Qed.

End SocketFacts.

Section SocketClaims.

Import FscpSocket Samples.

(** C2, as the claim has it, fails: on a new socket, a greet of Bob
    followed by the successful completion of its send calls the handler
    with success, and no datagram, let alone a HELLO-response, has
    arrived. *)
Lemma async_greet_succeeds_without_response :
  let trace := [Greet bob 7%nat; SendCompleted 0 success 5] in
  (∀ sender payload, DatagramArrived sender payload ∉ trace) ∧
  fst (run trace new_socket) = Ok tt ∧
  handler_calls (snd (run trace new_socket)) = [(7%nat, success, 5%nat)].
Proof.
  cbv zeta. split; [|vm_compute; done].
  intros sender payload Hin.
  repeat (apply elem_of_cons in Hin as [Hin|Hin]; [discriminate|]).
  by apply elem_of_nil in Hin.
Qed.

(** C2, amended: [async_greet] takes the next request number from the
    endpoint's context, puts one send to the endpoint in flight, of a
    buffer of the size the HELLO encoding requires, and calls no
    handler; the datagrams that arrive afterwards,
    HELLO-responses among them, change nothing; the handler is called
    when that send completes, once, with the error code and the byte
    count of the completion, so it succeeds exactly when the send does. *)
Theorem async_greet_completes_with_send
    (s : Socket) (destination : Endpoint) (handler : WriteHandler)
    (arrivals : list (Endpoint * list byte))
    (ec : error_code) (bytes_transferred : nat) :
  let datagrams := (fun d => DatagramArrived (fst d) (snd d)) <$> arrivals in
  ∃ s1 s2 buffer,
    run (Greet destination handler :: datagrams) s = (Ok tt, s1) ∧
    m_socket s1 = m_socket s ++ [mk_send buffer destination handler] ∧
    length buffer =
      fst (write_fscp_hello_request_message None 0
             (next_hello_number (context_of s destination))) ∧
    m_endpoint_contexts s1 =
      <[destination := snd (get_next_hello_request_number (context_of s destination))]>
        (m_endpoint_contexts s) ∧
    handler_calls s1 = handler_calls s ∧
    run [SendCompleted (length (m_socket s)) ec bytes_transferred] s1 = (Ok tt, s2) ∧
    m_socket s2 = m_socket s ∧
    handler_calls s2 = handler_calls s ++ [(handler, ec, bytes_transferred)].
Proof.
  intros datagrams. subst datagrams.
  eexists _, _, _. split.
  { rewrite run_cons. cbn [dispatch]. rewrite async_greet_spec. apply run_datagrams. }
  cbn [m_socket handler_calls m_endpoint_contexts].
  split; [reflexivity|]. split; [apply length_replicate|].
  split; [reflexivity|]. split; [reflexivity|].
  split.
  { rewrite run_cons. cbn [dispatch].
    erewrite complete_send_spec; [reflexivity|].
    cbn [m_socket]. by rewrite lookup_app_r, Nat.sub_diag. }
  cbn [m_socket handler_calls]. split; [|done].
  rewrite delete_middle. by rewrite app_nil_r.
Qed.

(** C9: the first call of [get_endpoint_context_for] for an endpoint
    that has no context adds the default one, and only that one; a call
    for an endpoint that has a context returns it and leaves the socket
    as it was; so a second call with the same endpoint returns the
    context of the first call and changes nothing.  A new socket has no
    context at all. *)
Theorem get_endpoint_context_for_again (s : Socket) (endpoint : Endpoint) :
  m_endpoint_contexts new_socket !! endpoint = None ∧
  ∃ context s1,
    get_endpoint_context_for endpoint s = (Ok context, s1) ∧
    m_endpoint_contexts s1 !! endpoint = Some context ∧
    (m_endpoint_contexts s !! endpoint = None →
       context = default_context ∧
       m_endpoint_contexts s1 = <[endpoint := default_context]> (m_endpoint_contexts s)) ∧
    (∀ c, m_endpoint_contexts s !! endpoint = Some c → context = c ∧ s1 = s) ∧
    (∀ other, other ≠ endpoint →
       m_endpoint_contexts s1 !! other = m_endpoint_contexts s !! other) ∧
    get_endpoint_context_for endpoint s1 = (Ok context, s1).
Proof.
  split; [apply lookup_empty|].
  rewrite get_endpoint_context_for_spec.
  destruct (m_endpoint_contexts s !! endpoint) as [c|] eqn:Hc.
  - exists c, s. rewrite get_endpoint_context_for_spec, Hc.
    split_and!; try done. intros c' [= ->]. done.
  - eexists _, _. split; [reflexivity|]. cbn [m_endpoint_contexts].
    rewrite get_endpoint_context_for_spec. cbn [m_endpoint_contexts].
    rewrite lookup_insert_eq. split_and!; try done.
    intros other Hother. by apply lookup_insert_ne.
Qed.

(** C7: on a context whose counter is a 32-bit number, two successive
    calls of [get_next_hello_request_number] hand out the counter's
    value [n] and then [n + 1] modulo [2 ^ 32]: a number greater by one
    while [n] is below [2 ^ 32 - 1], and [0] after [2 ^ 32 - 1]; the
    [k]-th later call hands out [n + k] modulo [2 ^ 32], so the numbers
    of any [2 ^ 32] successive calls differ from one another; and
    [async_greet] moves the counter of its endpoint one call forward. *)
Theorem hello_request_numbers_increase (c : EndpointContext) :
  (0 ≤ next_hello_number c < uint32_modulus)%Z →
  let '(n, c1) := get_next_hello_request_number c in
  let '(n1, c2) := get_next_hello_request_number c1 in
  n = next_hello_number c ∧
  n1 = ((n + 1) mod 2 ^ 32)%Z ∧
  ((n < 2 ^ 32 - 1 → n1 = n + 1 ∧ n < n1) ∧ (n = 2 ^ 32 - 1 → n1 = 0))%Z ∧
  (0 ≤ n1 < 2 ^ 32)%Z ∧
  (∀ k, nth_hello_request_number k c = ((n + Z.of_nat k) mod 2 ^ 32)%Z) ∧
  (∀ i j, (i < j)%nat → (Z.of_nat j - Z.of_nat i < 2 ^ 32)%Z →
          nth_hello_request_number i c ≠ nth_hello_request_number j c) ∧
  (∀ s destination handler,
     m_endpoint_contexts s !! destination = Some c →
     m_endpoint_contexts (snd (async_greet destination handler s)) !! destination
     = Some c1).
Proof.
  intros Hrange. cbn [get_next_hello_request_number next_hello_number].
  change uint32_modulus with (2 ^ 32)%Z in *.
  set (n := next_hello_number c) in *.
  split_and!.
  - done.
  - done.
  - intros Hn. rewrite Z.mod_small by lia. lia.
  - intros ->. reflexivity.
  - apply Z.mod_pos_bound. reflexivity.
  - apply Z.mod_pos_bound. reflexivity.
  - intros k. by rewrite nth_hello_request_number_spec.
  - intros i j Hij Hwindow.
    rewrite !nth_hello_request_number_spec by done.
    apply uint32_wrap_distinct; [lia | done].
  - intros s destination handler Hc.
    rewrite async_greet_spec. cbn [snd m_endpoint_contexts].
    rewrite lookup_insert_eq. unfold context_of. rewrite Hc. reflexivity.
Qed.

Lemma hello_request_numbers_increase_witness :
  let c := mk_context (2 ^ 32 - 1) UNKNOWN None in
  (0 ≤ next_hello_number c < uint32_modulus)%Z ∧
  fst (get_next_hello_request_number c) = (2 ^ 32 - 1)%Z ∧
  fst (get_next_hello_request_number (snd (get_next_hello_request_number c))) = 0%Z ∧
  (∀ k, nth_hello_request_number k c = ((2 ^ 32 - 1 + Z.of_nat k) mod 2 ^ 32)%Z).
Proof.
  cbv zeta. split; [vm_compute; split; [discriminate|reflexivity]|].
  pose proof (hello_request_numbers_increase (mk_context (2 ^ 32 - 1) UNKNOWN None)) as H.
  cbn [get_next_hello_request_number next_hello_number] in H.
  destruct H as (_ & Hnext & _ & _ & Hnth & _).
  { vm_compute. split; [discriminate|reflexivity]. }
  split; [reflexivity|]. split; [reflexivity|]. exact Hnth.
Defined.

(** C8: for every request number, the HELLO encoder called with a null
    buffer returns the length of the HELLO message, which is not zero;
    called with a buffer of just that size it fills the buffer with the
    message and returns the same count; and the buffer [async_greet]
    hands to the socket has the size the null-buffer call returned for
    the number it took. *)
Theorem hello_request_probe_is_exact (unique_number : Z) :
  let required_size := fst (write_fscp_hello_request_message None 0 unique_number) in
  required_size = length (hello_request_message unique_number) ∧
  required_size ≠ 0%nat ∧
  (∀ bytes, length bytes = required_size →
     write_fscp_hello_request_message (Some bytes) (length bytes) unique_number
     = (required_size, Some (hello_request_message unique_number))) ∧
  (∀ s destination handler,
     next_hello_number (context_of s destination) = unique_number →
     ∃ s' buffer,
       async_greet destination handler s = (Ok tt, s') ∧
       m_socket s' = m_socket s ++ [mk_send buffer destination handler] ∧
       length buffer = required_size).
Proof.
  cbv zeta. cbn [write_fscp_hello_request_message fst].
  rewrite hello_request_message_length. split_and!; [done | done | |].
  - intros bytes Hlen. rewrite Hlen. cbn [Nat.ltb Nat.leb].
    rewrite drop_ge by lia. by rewrite app_nil_r.
  - intros s destination handler _. eexists _, _.
    split; [apply async_greet_spec|]. cbn [m_socket]. split; [reflexivity|].
    apply length_replicate.
Qed.

End SocketClaims.

(** ** More on the switch *)

Section SwitchRuns.

Import Switch Samples Runs.


Lemma flooded_absent ports source_port data :
  source_port ∉ ports →
  flooded ports source_port data = (fun port => (port, data)) <$> ports.
Proof.
  intros Habsent. unfold flooded. f_equal.
  induction ports as [|port rest IH]; [done|].
  apply not_elem_of_cons in Habsent as [Hne Hrest].
  rewrite filter_cons, decide_True by done. by rewrite IH.
Qed.

Lemma flooded_only_source ports source_port data :
  (∀ port, port ∈ ports → port = source_port) →
  flooded ports source_port data = [].
Proof.
  intros Honly. unfold flooded.
  induction ports as [|port rest IH]; [done|].
  rewrite filter_cons, decide_False.
  - apply IH. intros p Hp. apply Honly. by right.
  - intros Hne. apply Hne, Honly. by left.
Qed.

(** X1: [receive_data] never changes the ports or the routing method of
    the switch, and when it fails (a null port, a frame it cannot read)
    it leaves the whole switch, address table and ports' input
    included, as it found it. *)
Theorem receive_data_keeps_configuration
    (s : switch_) (port : port_type) (data : const_buffer) :
  m_ports (snd (receive_data port data s)) = m_ports s ∧
  m_routing_method (snd (receive_data port data s)) = m_routing_method s ∧
  (∀ e, fst (receive_data port data s) = Err e → snd (receive_data port data s) = s).
Proof.
  destruct (decide (port = 0%N)) as [->|Hport].
  { rewrite receive_data_null. done. }
  destruct (m_routing_method s) eqn:Hmode.
  - rewrite receive_data_hub by done. cbn. split_and!; [done|done|]. intros e [=].
  - destruct (decide (buffer_size data < ethernet_header_size)%nat).
    + rewrite receive_data_switch_short by done. done.
    + rewrite receive_data_switch by (done || lia). cbn.
      split_and!; [done|done|]. intros e [=].
Qed.


(** X3: a frame sent from a port that is not one of the switch's ports
    is written to every port of the switch, in their order. *)
Theorem send_data_from_foreign_port
    (s : switch_) (source_port : port_type) (data : const_buffer) :
  source_port ∉ m_ports s →
  port_writes (snd (send_data_from source_port data s)) =
  port_writes s ++ ((fun port => (port, data)) <$> m_ports s).
Proof.
  intros Habsent. rewrite send_data_from_spec. cbn.
  by rewrite flooded_absent.
Qed.

Lemma send_data_from_foreign_port_witness :
  (4%N ∉ m_ports hub) ∧
  port_writes (snd (send_data_from 4%N short_frame hub)) =
  port_writes hub ++ ((fun port => (port, short_frame)) <$> m_ports hub).
Proof.
  assert (H : 4%N ∉ m_ports hub).
  { intros Hin. repeat (apply elem_of_cons in Hin as [Hin|Hin]; [discriminate|]).
    by apply elem_of_nil in Hin. }
  split; [exact H|].
  apply (send_data_from_foreign_port hub 4%N short_frame H).
Defined.

(** X4: a hub whose only ports are the source port itself, or that has
    no port at all, accepts the frame and writes it nowhere. *)
Theorem receive_data_hub_alone
    (s : switch_) (port : port_type) (data : const_buffer) :
  m_routing_method s = RM_HUB → port ≠ 0%N →
  (∀ p, p ∈ m_ports s → p = port) →
  receive_data port data s = (Ok tt, s).
Proof.
  intros Hmode Hport Honly. rewrite receive_data_hub by done.
  rewrite flooded_only_source by done. rewrite app_nil_r, <- Hmode.
  by destruct s.
Qed.

Lemma receive_data_hub_alone_witness :
  let lonely := mk_switch RM_HUB [5%N; 5%N] ∅ [] in
  m_routing_method lonely = RM_HUB ∧ 5%N ≠ 0%N ∧
  (∀ p, p ∈ m_ports lonely → p = 5%N) ∧
  receive_data 5%N frame_from_A lonely = (Ok tt, lonely).
Proof.
  cbv zeta.
  assert (H : ∀ p, p ∈ m_ports (mk_switch RM_HUB [5%N; 5%N] ∅ []) → p = 5%N).
  { intros p Hin. cbn in Hin.
    repeat (apply elem_of_cons in Hin as [Hin|Hin]; [exact Hin|]).
    by apply elem_of_nil in Hin. }
  split; [reflexivity|]. split; [discriminate|]. split; [exact H|].
  apply (receive_data_hub_alone (mk_switch RM_HUB [5%N; 5%N] ∅ []) 5%N frame_from_A);
    [reflexivity | discriminate | exact H].
Defined.

(** X5: in SWITCH mode, of two frames received one after the other the
    later decides: its source address is then on its port; when both
    frames have the same source address the table is the one the second
    frame alone would have left (the station has moved), and when they
    differ the first address is still on the first port. *)
Theorem receive_data_switch_twice
    (s : switch_) (p1 p2 : port_type) (d1 d2 : const_buffer) :
  m_routing_method s = RM_SWITCH → p1 ≠ 0%N → p2 ≠ 0%N →
  (ethernet_header_size ≤ buffer_size d1)%nat →
  (ethernet_header_size ≤ buffer_size d2)%nat →
  let a1 := sender (mk_helper d1) in
  let a2 := sender (mk_helper d2) in
  ∃ s1 s2,
    receive_data p1 d1 s = (Ok tt, s1) ∧ receive_data p2 d2 s1 = (Ok tt, s2) ∧
    m_ethernet_address_map s2 !! a2 = Some p2 ∧
    (a1 = a2 → m_ethernet_address_map s2 = <[a2 := p2]> (m_ethernet_address_map s)) ∧
    (a1 ≠ a2 → m_ethernet_address_map s2 !! a1 = Some p1).
Proof.
  intros Hmode Hp1 Hp2 Hd1 Hd2 a1 a2.
  eexists _, _. split; [by apply receive_data_switch|].
  split; [by apply receive_data_switch|].
  cbn [m_ethernet_address_map m_ports m_routing_method port_writes].
  change (take 6 (drop 6 d1)) with a1. change (take 6 (drop 6 d2)) with a2.
  split_and!.
  - apply lookup_insert_eq.
  - intros ->. apply insert_insert_eq.
  - intros Hne. rewrite lookup_insert_ne by done. apply lookup_insert_eq.
Qed.

Lemma receive_data_switch_twice_witness :
  m_routing_method learning_switch = RM_SWITCH ∧ 1%N ≠ 0%N ∧ 3%N ≠ 0%N ∧
  (ethernet_header_size ≤ buffer_size frame_from_A)%nat ∧
  ∃ s1 s2,
    receive_data 1%N frame_from_A learning_switch = (Ok tt, s1) ∧
    receive_data 3%N frame_from_A s1 = (Ok tt, s2) ∧
    m_ethernet_address_map s2 !! MAC_A = Some 3%N ∧
    (MAC_A = MAC_A →
     m_ethernet_address_map s2 = <[MAC_A := 3%N]> (m_ethernet_address_map learning_switch)) ∧
    (MAC_A ≠ MAC_A → m_ethernet_address_map s2 !! MAC_A = Some 1%N).
Proof.
  split; [reflexivity|]. split; [discriminate|]. split; [discriminate|].
  split; [vm_compute; lia|].
  apply (receive_data_switch_twice learning_switch 1%N 3%N frame_from_A frame_from_A);
    [reflexivity | discriminate | discriminate | vm_compute; lia | vm_compute; lia].
Defined.



(** X7: [receive_data] never forgets an address: every address the table
    had before the call it has after it, and a call adds at most one
    address. *)
Theorem receive_data_table_grows
    (s : switch_) (port : port_type) (data : const_buffer) :
  dom (m_ethernet_address_map s) ⊆ dom (m_ethernet_address_map (snd (receive_data port data s))) ∧
  (size (m_ethernet_address_map (snd (receive_data port data s)))
   ≤ S (size (m_ethernet_address_map s)))%nat.
Proof.
  destruct (decide (port = 0%N)) as [->|Hport].
  { rewrite receive_data_null. cbn. split; [done | lia]. }
  destruct (m_routing_method s) eqn:Hmode.
  - rewrite receive_data_hub by done. cbn. split; [done | lia].
  - destruct (decide (buffer_size data < ethernet_header_size)%nat).
    + rewrite receive_data_switch_short by done. cbn. split; [done | lia].
    + rewrite receive_data_switch by (done || lia). cbn [snd m_ethernet_address_map].
      split; [apply dom_insert_subseteq|].
      rewrite map_size_insert. destruct (_ !! _); unfold id; lia.
Qed.

(** X16: a hub hands frames on in the order it receives them: after two
    frames, the ports have been given the flood of the first and then
    the flood of the second, and nothing else. *)
Theorem receive_data_hub_in_order
    (s : switch_) (p1 p2 : port_type) (d1 d2 : const_buffer) :
  m_routing_method s = RM_HUB → p1 ≠ 0%N → p2 ≠ 0%N →
  ∃ s1 s2,
    receive_data p1 d1 s = (Ok tt, s1) ∧ receive_data p2 d2 s1 = (Ok tt, s2) ∧
    port_writes s2 =
      port_writes s ++ flooded (m_ports s) p1 d1 ++ flooded (m_ports s) p2 d2 ∧
    m_ethernet_address_map s2 = m_ethernet_address_map s.
Proof.
  intros Hmode Hp1 Hp2.
  eexists _, _. split; [by apply receive_data_hub|].
  split; [by apply receive_data_hub|].
  cbn. by rewrite <- app_assoc.
Qed.

Lemma receive_data_hub_in_order_witness :
  m_routing_method hub = RM_HUB ∧ 1%N ≠ 0%N ∧ 2%N ≠ 0%N ∧
  ∃ s1 s2,
    receive_data 1%N frame_from_A hub = (Ok tt, s1) ∧
    receive_data 2%N frame_to_A s1 = (Ok tt, s2) ∧
    port_writes s2 =
      port_writes hub ++ flooded (m_ports hub) 1%N frame_from_A
                      ++ flooded (m_ports hub) 2%N frame_to_A ∧
    m_ethernet_address_map s2 = m_ethernet_address_map hub.
Proof.
  split; [reflexivity|]. split; [discriminate|]. split; [discriminate|].
  apply (receive_data_hub_in_order hub 1%N 2%N frame_from_A frame_to_A);
    [reflexivity | discriminate | discriminate].
Defined.

End SwitchRuns.

(** ** More on the socket *)

Section SocketRuns.

Import FscpSocket Samples Runs.

Lemma complete_send_none i ec bytes_transferred s :
  m_socket s !! i = None → complete_send i ec bytes_transferred s = (Ok tt, s).
Proof. intros Hnone. unfold complete_send. unfold_monad. by rewrite Hnone. Qed.

Lemma dispatch_ok e s : fst (dispatch e s) = Ok tt.
Proof.
  destruct e as [destination handler|i ec n|sender payload]; cbn [dispatch].
  - by rewrite async_greet_spec.
  - destruct (m_socket s !! i) as [op|] eqn:Hop.
    + by erewrite complete_send_spec.
    + by rewrite complete_send_none.
  - done.
Qed.

Lemma run_step e trace s : run (e :: trace) s = run trace (snd (dispatch e s)).
Proof.
  rewrite run_cons. pose proof (dispatch_ok e s) as Hok.
  destruct (dispatch e s) as [[[]|err] s']; [done|discriminate].
Qed.

Lemma run_ok trace s : fst (run trace s) = Ok tt.
Proof.
  revert s. induction trace as [|e rest IH]; intros s; [done|].
  rewrite run_step. apply IH.
Qed.

Lemma run_app trace1 trace2 s :
  run (trace1 ++ trace2) s = run trace2 (snd (run trace1 s)).
Proof.
  revert s. induction trace1 as [|e rest IH]; intros s; [done|].
  cbn [app]. rewrite !run_step. apply IH.
Qed.

(** X8: along any run, a handler given to [async_greet] is either still
    in flight or has been called, and never both nor twice: the handlers
    called and the handlers in flight after the run are, counted with
    repetitions, those called and in flight before it together with
    those of the greets of the run.  No run fails. *)
Theorem run_accounts_for_handlers (trace : list event) (s : Socket) :
  fst (run trace s) = Ok tt ∧
  called (snd (run trace s)) ++ in_flight (snd (run trace s))
  ≡ₚ called s ++ in_flight s ++ (snd <$> greeted trace).
Proof.
  split; [apply run_ok|].
  revert s. induction trace as [|e rest IH]; intros s.
  { cbn. by rewrite app_nil_r. }
  rewrite run_step, IH. clear IH.
  destruct e as [destination handler|i ec n|sender payload]; cbn [dispatch].
  - rewrite async_greet_spec. unfold called, in_flight, greeted.
    cbn [snd m_socket handler_calls omap list_omap fmap list_fmap].
    rewrite fmap_app. cbn [fmap list_fmap send_handler].
    rewrite <- !app_assoc. done.
  - destruct (m_socket s !! i) as [op|] eqn:Hop.
    + erewrite complete_send_spec by done. unfold called, in_flight, greeted.
      cbn [snd m_socket handler_calls omap list_omap].
      rewrite fmap_app. cbn [fmap list_fmap fst].
      rewrite (delete_Permutation (m_socket s) i op Hop) at 2.
      rewrite fmap_cons, <- !app_assoc. done.
    + by rewrite complete_send_none.
  - done.
Qed.


Lemma dispatch_contexts e s endpoint :
  (is_Some (m_endpoint_contexts s !! endpoint) →
   is_Some (m_endpoint_contexts (snd (dispatch e s)) !! endpoint)) ∧
  (endpoint ∉ (fst <$> greeted [e]) →
   m_endpoint_contexts (snd (dispatch e s)) !! endpoint = m_endpoint_contexts s !! endpoint) ∧
  (endpoint ∈ (fst <$> greeted [e]) →
   is_Some (m_endpoint_contexts (snd (dispatch e s)) !! endpoint)).
Proof.
  destruct e as [destination handler|i ec n|sender payload]; cbn [dispatch].
  - rewrite async_greet_spec. cbn [snd m_endpoint_contexts].
    cbn [greeted omap list_omap fmap list_fmap fst].
    split_and!.
    + intros Hsome. apply lookup_insert_is_Some'. by right.
    + intros Hnot. apply not_elem_of_cons in Hnot as [Hne _].
      by rewrite lookup_insert_ne.
    + intros Hin. apply list_elem_of_singleton in Hin as ->.
      rewrite lookup_insert_eq. done.
  - assert (Hsame : m_endpoint_contexts (snd (complete_send i ec n s)) = m_endpoint_contexts s).
    { destruct (m_socket s !! i) as [op|] eqn:Hop.
      - by erewrite complete_send_spec.
      - by rewrite complete_send_none. }
    rewrite Hsame. split_and!; [done|done|].
    cbn. intros Hin. by apply elem_of_nil in Hin.
  - cbn. split_and!; [done|done|]. intros Hin. by apply elem_of_nil in Hin.
Qed.

(** X10: a run never takes a context away and gives contexts to the
    endpoints it greets only: an endpoint that had a context has one
    after the run, an endpoint greeted in the run has one after it, and
    the entry of an endpoint the run does not greet is what it was. *)
Theorem run_keeps_contexts (trace : list event) (s : Socket) (endpoint : Endpoint) :
  (is_Some (m_endpoint_contexts s !! endpoint) →
   is_Some (m_endpoint_contexts (snd (run trace s)) !! endpoint)) ∧
  (endpoint ∉ (fst <$> greeted trace) →
   m_endpoint_contexts (snd (run trace s)) !! endpoint = m_endpoint_contexts s !! endpoint) ∧
  (endpoint ∈ (fst <$> greeted trace) →
   is_Some (m_endpoint_contexts (snd (run trace s)) !! endpoint)).
Proof.
  revert s. induction trace as [|e rest IH]; intros s.
  { cbn. split_and!; [done|done|]. intros Hin. by apply elem_of_nil in Hin. }
  rewrite run_step.
  destruct (IH (snd (dispatch e s))) as (IHkeep & IHframe & IHnew).
  destruct (dispatch_contexts e s endpoint) as (Hkeep & Hframe & Hnew).
  change (e :: rest) with ([e] ++ rest).
  unfold greeted in *. rewrite omap_app, fmap_app.
  split_and!.
  - auto.
  - intros Hnot. apply not_elem_of_app in Hnot as [Hnot1 Hnot2].
    rewrite IHframe by done. auto.
  - intros Hin. apply elem_of_app in Hin as [Hin|Hin]; auto.
Qed.

(** X11: greets of one endpoint, one after the other, put their sends in
    flight in the order of the greets, one send per greet, each to that
    endpoint and of the size of a HELLO, and call no handler; if the
    endpoint's counter was a 32-bit number [n], after [k] greets it is
    [n + k] modulo [2 ^ 32]. *)
Theorem async_greet_repeated
    (s : Socket) (destination : Endpoint) (handlers : list WriteHandler) :
  (0 ≤ next_hello_number (context_of s destination) < uint32_modulus)%Z →
  ∃ s' sends,
    run (Greet destination <$> handlers) s = (Ok tt, s') ∧
    m_socket s' = m_socket s ++ sends ∧
    send_handler <$> sends = handlers ∧
    Forall (fun op => send_destination op = destination ∧
                      length (send_buffer op) = length (hello_request_message 0)) sends ∧
    handler_calls s' = handler_calls s ∧
    next_hello_number (context_of s' destination) =
      ((next_hello_number (context_of s destination) + Z.of_nat (length handlers))
         mod uint32_modulus)%Z.
Proof.
  revert s. induction handlers as [|handler rest IH]; intros s Hrange.
  { exists s, []. cbn. rewrite app_nil_r, Z.add_0_r, Z.mod_small by done. done. }
  cbn [fmap list_fmap]. rewrite run_step. cbn [dispatch].
  rewrite async_greet_spec. cbn [snd].
  set (n := next_hello_number (context_of s destination)) in *.
  match goal with |- context [run _ ?s1] => set (s1' := s1) end.
  assert (Hn1 : next_hello_number (context_of s1' destination) = ((n + 1) mod uint32_modulus)%Z).
  { unfold context_of, s1'. cbn [m_endpoint_contexts]. by rewrite lookup_insert_eq. }
  destruct (IH s1') as (s' & sends & Hrun & Hsock & Hhandlers & Hall & Hcalls & Hcount).
  { rewrite Hn1. apply Z.mod_pos_bound. reflexivity. }
  exists s', (mk_send (replicate 5 x00) destination handler :: sends).
  split_and!.
  - done.
  - rewrite Hsock. unfold s1'. cbn [m_socket]. by rewrite <- app_assoc.
  - cbn. by rewrite Hhandlers.
  - constructor; [|done]. cbn. split; reflexivity.
  - rewrite Hcalls. done.
  - rewrite Hcount, Hn1. rewrite Zplus_mod_idemp_l. f_equal.
    cbn [length]. lia.
Qed.

Lemma async_greet_repeated_witness :
  (0 ≤ next_hello_number (context_of new_socket bob) < uint32_modulus)%Z ∧
  ∃ s' sends,
    run (Greet bob <$> [7%nat; 8%nat; 9%nat]) new_socket = (Ok tt, s') ∧
    m_socket s' = m_socket new_socket ++ sends ∧
    send_handler <$> sends = [7%nat; 8%nat; 9%nat] ∧
    Forall (fun op => send_destination op = bob ∧
                      length (send_buffer op) = length (hello_request_message 0)) sends ∧
    handler_calls s' = handler_calls new_socket ∧
    next_hello_number (context_of s' bob) =
      ((next_hello_number (context_of new_socket bob) + Z.of_nat 3) mod uint32_modulus)%Z.
Proof.
  assert (H : (0 ≤ next_hello_number (context_of new_socket bob) < uint32_modulus)%Z).
  { vm_compute. split; [discriminate | reflexivity]. }
  split; [exact H|].
  apply (async_greet_repeated new_socket bob [7%nat; 8%nat; 9%nat] H).
Defined.

(** X12: the contexts do not depend on the order of first contact: two
    calls of [get_endpoint_context_for], for any two endpoints, leave
    the same socket whichever comes first. *)
Theorem get_endpoint_context_for_commute (s : Socket) (e1 e2 : Endpoint) :
  snd (get_endpoint_context_for e1 (snd (get_endpoint_context_for e2 s))) =
  snd (get_endpoint_context_for e2 (snd (get_endpoint_context_for e1 s))).
Proof.
  destruct (decide (e1 = e2)) as [->|Hne]; [done|].
  rewrite !get_endpoint_context_for_spec.
  destruct (m_endpoint_contexts s !! e1) as [c1|] eqn:H1;
    destruct (m_endpoint_contexts s !! e2) as [c2|] eqn:H2;
    cbn [snd m_endpoint_contexts m_socket handler_calls];
    rewrite ?lookup_insert_ne by done; rewrite ?H1, ?H2;
    cbn [snd m_endpoint_contexts m_socket handler_calls]; try done.
  f_equal. by apply insert_insert_ne.
Qed.

End SocketRuns.

(** ** The sample client *)

Section Client2Facts.

Import Client2.

Lemma signal_handler_idle code p :
  ¬ stops code ∨ stop_function p = None → signal_handler code p = (Ok tt, p).
Proof.
  unfold signal_handler, stops. intros [Hnot|Hnone].
  - by rewrite bool_decide_eq_false_2.
  - case_bool_decide; [|done]. unfold mbind, M_bind, gets. by rewrite Hnone.
Qed.

Lemma signal_handler_stops code p s1 s2 s3 :
  stops code → stop_function p = Some (s1, s2, s3) →
  signal_handler code p =
  (Ok tt, mk_process None (refused p) (installed p)
                     (cerr p ++ ["Signal caught: stopping..."])
                     (closed p ++ [s1; s2; s3])).
Proof.
  intros Hstops Hsome. unfold signal_handler.
  rewrite bool_decide_eq_true_2 by exact Hstops.
  unfold mbind, M_bind, gets. rewrite Hsome.
  unfold write_cerr, _stop_function, close, set_stop_function, modify, mbind, M_bind.
  cbn. by rewrite <- !app_assoc.
Qed.

Lemma signal_handler_each_cons code codes p :
  signal_handler_each (code :: codes) p = signal_handler_each codes (snd (signal_handler code p)).
Proof.
  cbn [signal_handler_each]. unfold mbind, M_bind.
  destruct (decide (stops code)) as [Hstops|Hnot].
  - destruct (stop_function p) as [[[s1 s2] s3]|] eqn:Hf.
    + by erewrite signal_handler_stops.
    + by rewrite signal_handler_idle by auto.
  - by rewrite signal_handler_idle by auto.
Qed.

Lemma signal_handler_each_unset codes p :
  stop_function p = None → signal_handler_each codes p = (Ok tt, p).
Proof.
  intros Hnone. induction codes as [|code rest IH]; [done|].
  rewrite signal_handler_each_cons. by rewrite signal_handler_idle by auto.
Qed.

(** X13: signals that find no stop function, and signals other than
    SIGTERM, SIGINT and SIGABRT, do nothing: no server is closed and
    nothing is written. *)
Theorem signal_handler_each_idle (codes : list Z) (p : process) :
  stop_function p = None ∨ Forall (fun code => ¬ stops code) codes →
  signal_handler_each codes p = (Ok tt, p).
Proof.
  intros H. induction codes as [|code rest IH]; [done|].
  rewrite signal_handler_each_cons.
  rewrite signal_handler_idle.
  - apply IH. destruct H as [Hnone|Hall]; [by left|].
    right. by apply Forall_cons in Hall as [_ Hrest].
  - destruct H as [Hnone|Hall]; [by right|].
    left. by apply Forall_cons in Hall as [Hcode _].
Qed.

Lemma signal_handler_each_idle_witness :
  (stop_function serving = None ∨ Forall (fun code => ¬ stops code) [1%Z; 10%Z]) ∧
  signal_handler_each [1%Z; 10%Z] serving = (Ok tt, serving).
Proof.
  assert (H : stop_function serving = None ∨ Forall (fun code => ¬ stops code) [1%Z; 10%Z]).
  { right. repeat constructor; intros [Hs|[Hs|Hs]]; discriminate Hs. }
  split; [exact H|].
  apply (signal_handler_each_idle [1%Z; 10%Z] serving H).
Defined.

(** X14: however many signals arrive, the stop function runs once: when
    it is set and one of the signals is SIGTERM, SIGINT or SIGABRT, the
    three servers are closed once each, in the order they were bound,
    one line is written to the error stream, and the stop function is
    cleared. *)
Theorem signal_handler_each_stops_once
    (codes : list Z) (p : process) (s1 s2 s3 : server) :
  stop_function p = Some (s1, s2, s3) → Exists stops codes →
  signal_handler_each codes p =
  (Ok tt, mk_process None (refused p) (installed p)
                     (cerr p ++ ["Signal caught: stopping..."])
                     (closed p ++ [s1; s2; s3])).
Proof.
  intros Hsome Hexists. induction codes as [|code rest IH].
  { by apply Exists_nil in Hexists. }
  rewrite signal_handler_each_cons.
  destruct (decide (stops code)) as [Hstops|Hnot].
  - erewrite signal_handler_stops by done. cbn [snd].
    by apply signal_handler_each_unset.
  - rewrite signal_handler_idle by auto. cbn [snd].
    apply IH. apply Exists_cons in Hexists as [?|?]; done.
Qed.

Lemma signal_handler_each_stops_once_witness :
  stop_function serving = Some ("alice", "bob", "chris") ∧
  Exists stops [1%Z; SIGINT; SIGTERM; SIGINT] ∧
  signal_handler_each [1%Z; SIGINT; SIGTERM; SIGINT] serving =
  (Ok tt, mk_process None (refused serving) (installed serving)
                     (cerr serving ++ ["Signal caught: stopping..."])
                     (closed serving ++ ["alice"; "bob"; "chris"])).
Proof.
  assert (H : Exists stops [1%Z; SIGINT; SIGTERM; SIGINT]).
  { apply Exists_cons_tl, Exists_cons_hd. right. left. reflexivity. }
  split; [reflexivity|]. split; [exact H|].
  apply (signal_handler_each_stops_once [1%Z; SIGINT; SIGTERM; SIGINT] serving
           "alice" "bob" "chris" eq_refl H).
Defined.

(** X15: [register_signal_handlers] asks for SIGTERM, SIGINT and SIGABRT
    in that order and stops at the first refusal: it returns true, with
    nothing written, exactly when the three handlers are installed;
    otherwise it returns false, writes one line to the error stream,
    leaves installed the handlers it obtained before the refused signal
    and asks for none after it. *)
Theorem register_signal_handlers_spec (p : process) :
  ∃ (b : bool) obtained lines,
    register_signal_handlers p =
      (Ok b, mk_process (stop_function p) (refused p) (installed p ++ obtained)
                        (cerr p ++ lines) (closed p)) ∧
    obtained `prefix_of` [SIGTERM; SIGINT; SIGABRT] ∧
    Forall (fun sig => sig ∉ refused p) obtained ∧
    (b = true ↔ obtained = [SIGTERM; SIGINT; SIGABRT]) ∧
    (b = true → lines = []) ∧
    (b = false →
       length lines = 1%nat ∧
       ∃ sig, obtained ++ [sig] `prefix_of` [SIGTERM; SIGINT; SIGABRT] ∧ sig ∈ refused p).
Proof.
  unfold register_signal_handlers, signal_fails, write_cerr.
  unfold mbind, M_bind, gets, modify, mret, M_ret.
  destruct (decide (SIGTERM ∈ refused p)) as [Hterm|Hterm].
  { rewrite bool_decide_eq_true_2 by done. cbn.
    exists false, [], ["Failed to catch SIGTERM signals."]. rewrite app_nil_r.
    split_and!; try done.
    - apply prefix_nil.
    - intros _. split; [done|]. exists SIGTERM. split; [|done]. by exists [SIGINT; SIGABRT]. }
  rewrite bool_decide_eq_false_2 by done. cbn [refused installed cerr].
  destruct (decide (SIGINT ∈ refused p)) as [Hint|Hint].
  { rewrite bool_decide_eq_true_2 by done. cbn.
    exists false, [SIGTERM], ["Failed to catch SIGINT signals."].
    split_and!; try done.
    - by exists [SIGINT; SIGABRT].
    - by constructor.
    - intros _. split; [done|]. exists SIGINT. split; [|done]. by exists [SIGABRT]. }
  rewrite bool_decide_eq_false_2 by done. cbn [refused installed cerr].
  destruct (decide (SIGABRT ∈ refused p)) as [Habrt|Habrt].
  { rewrite bool_decide_eq_true_2 by done. cbn.
    exists false, [SIGTERM; SIGINT], ["Failed to catch SIGABRT signals."]. rewrite <- !app_assoc.
    split_and!; try done.
    - by exists [SIGABRT].
    - by repeat constructor.
    - intros _. split; [done|]. exists SIGABRT. split; [|done]. by exists []. }
  rewrite bool_decide_eq_false_2 by done. cbn.
  exists true, [SIGTERM; SIGINT; SIGABRT], []. rewrite <- !app_assoc, app_nil_r.
  split_and!; try done.
  by repeat constructor.
Qed.

End Client2Facts.
